(** * check_domains: a shallow embedding of [check_domains.py]

    The module crosses a list of base strings with a list of top-level
    domains, probes every resulting domain with one WHOIS query and reports
    the domains whose query faulted.

    Python strings are [string]s whose characters are read as the code points
    0..255.  Everything the program does to the outside world (the callback,
    [print], [whois.whois]) is recorded, in order, in a trace; the outside
    world answers as a function of the trace so far, so that the same domain
    may be answered differently on two calls. *)

From Stdlib Require Import String Ascii List Bool Arith PeanoNat Lia.
Import ListNotations.

Local Open Scope string_scope.
Local Open Scope list_scope.

(** Concatenation of Python strings; [++] is kept for lists. *)
Infix "+++" := String.append (at level 60, right associativity).

(** ** Exceptions and results *)

(** The exception classes the program can meet.  [KeyboardInterrupt] and
    [SystemExit] derive from [BaseException] only; all others are instances
    of [Exception]. *)
Inductive py_exception : Type :=
| FileNotFoundError
| PermissionError
| AttributeError (msg : string)
| YAMLError (msg : string)
| WhoisError (msg : string)
| OtherException (name : string)
| KeyboardInterrupt
| SystemExit (code : nat).

(** [isinstance(e, Exception)] *)
Definition isinstance_Exception (e : py_exception) : bool :=
  match e with
  | KeyboardInterrupt | SystemExit _ => false
  | _ => true
  end.

(** [isinstance(e, FileNotFoundError)] *)
Definition isinstance_FileNotFoundError (e : py_exception) : bool :=
  match e with
  | FileNotFoundError => true
  | _ => false
  end.

(** The outcome of evaluating a Python expression: a value, or a raised
    exception. *)
Inductive result (A : Type) : Type :=
| Ok (a : A)
| Raise (e : py_exception).
Arguments Ok {A} a.
Arguments Raise {A} e.

Definition is_ok {A : Type} (r : result A) : bool :=
  match r with
  | Ok _ => true
  | Raise _ => false
  end.

(** ** The outside world *)

(** Outcome of one call [whois.whois(domain)]: a record comes back (its
    content is never looked at), or the call raises. *)
Inductive whois_outcome : Type :=
| WhoisRecord
| WhoisFaults (e : py_exception).

Inductive event : Type :=
| EvCallback (arg : string)                    (* status_callback(arg) is entered *)
| EvPrint (text : string)                      (* print(text) *)
| EvWhois (domain : string) (o : whois_outcome). (* whois.whois(domain) was called *)

Definition trace : Type := list event.

(** What [yaml.safe_load] can hand back for a configuration document.  The
    values stored under a key are sequences of strings, the type the
    annotation [List[str]] of [load_config] promises. *)
Inductive yaml_value : Type :=
| YamlNone                                          (* empty document: None *)
| YamlScalar (s : string)                           (* a top-level scalar *)
| YamlSequence (items : list string)                (* a top-level list *)
| YamlMapping (entries : list (string * list string)). (* a dict *)

(** The result of [argparse]: [args.input_file] and [args.config]. *)
Record Namespace : Type := {
  input_file : string;
  config : string
}.

Record world : Type := {
  (** [sys.argv] as [ArgumentParser.parse_args] reads it. *)
  cli : result Namespace;
  (** [open(path, 'r')] followed by reading the whole text, newlines already
      translated to ["\n"]. *)
  open_text : string -> result string;
  (** [yaml.safe_load] on the text of a file; a parse failure is a
      [yaml.YAMLError] carrying the given message. *)
  yaml_safe_load : string -> string + yaml_value;
  (** [whois.whois], answering from the history of the run. *)
  whois_whois : trace -> string -> whois_outcome
}.

(** A value passed as [status_callback]: its truth value (what
    [if status_callback:] tests) and what a call does, given the history:
    the lines it prints and whether it then raises. *)
Record callback : Type := {
  cb_truthy : bool;
  cb_body : trace -> string -> list string * option py_exception
}.

(** ** The monad of the program: a trace threaded through, with exceptions *)

Definition M (A : Type) : Type := trace -> result A * trace.

Definition ret {A : Type} (a : A) : M A := fun t => (Ok a, t).

Definition bind {A B : Type} (m : M A) (k : A -> M B) : M B :=
  fun t =>
    match m t with
    | (Ok a, t') => k a t'
    | (Raise e, t') => (Raise e, t')
    end.

Definition raise {A : Type} (e : py_exception) : M A := fun t => (Raise e, t).

Definition emit (ev : event) : M unit := fun t => (Ok tt, t ++ [ev]).

(** [try: body except <class>: handler] *)
Definition try_except {A : Type} (body : M A)
    (catches : py_exception -> bool) (handler : M A) : M A :=
  fun t =>
    match body t with
    | (Ok a, t') => (Ok a, t')
    | (Raise e, t') => if catches e then handler t' else (Raise e, t')
    end.

(** An effect-free expression that may raise. *)
Definition lift {A : Type} (r : result A) : M A := fun t => (r, t).

Declare Scope py_scope.
Delimit Scope py_scope with py.
Notation "x <- m ;; k" := (bind m (fun x => k))
  (at level 100, m at next level, right associativity) : py_scope.
Notation "m ;;; k" := (bind m (fun _ => k))
  (at level 100, right associativity) : py_scope.
Local Open Scope py_scope.

(** ** Built-ins *)

(** [print(text)] *)
Definition print (text : string) : M unit := emit (EvPrint text).

Fixpoint print_all (lines : list string) : M unit :=
  match lines with
  | [] => ret tt
  | l :: ls => print l ;;; print_all ls
  end.

(** Truth value of a [str]: the empty string is false. *)
Definition str_truthy (s : string) : bool :=
  match s with
  | EmptyString => false
  | String _ _ => true
  end.

(** [str.isspace] on one character, for the code points below 256:
    U+0009..U+000D, U+001C..U+0020, U+0085 and U+00A0. *)
Definition isspace (c : ascii) : bool :=
  let n := nat_of_ascii c in
  (((9 <=? n) && (n <=? 13)) || ((28 <=? n) && (n <=? 32))
   || (n =? 133) || (n =? 160))%nat.

(** [str.lstrip()] *)
Fixpoint lstrip (s : string) : string :=
  match s with
  | EmptyString => EmptyString
  | String c s' => if isspace c then lstrip s' else s
  end.

(** [str.rstrip()] *)
Fixpoint rstrip (s : string) : string :=
  match s with
  | EmptyString => EmptyString
  | String c s' =>
      match rstrip s' with
      | EmptyString => if isspace c then EmptyString else String c EmptyString
      | r => String c r
      end
  end.

(** [str.strip()] *)
Definition strip (s : string) : string := lstrip (rstrip s).

Definition newline : ascii := ascii_of_nat 10.

(** Iterating over a text file: the lines, each with its ["\n"], the last one
    possibly without; [cur] is the line being read. *)
Fixpoint lines_from (cur : string) (s : string) : list string :=
  match s with
  | EmptyString => if str_truthy cur then [cur] else []
  | String c s' =>
      if Ascii.eqb c newline
      then (cur +++ String c EmptyString) :: lines_from EmptyString s'
      else lines_from (cur +++ String c EmptyString) s'
  end.

Definition file_lines (content : string) : list string :=
  lines_from EmptyString content.

(** [d.get(key, default)] on a dict. *)
Fixpoint dict_get (entries : list (string * list string)) (key : string)
    (default : list string) : list string :=
  match entries with
  | [] => default
  | (k, v) :: rest => if String.eqb k key then v else dict_get rest key default
  end.

(** [config.get('top_level_domains', [])] on whatever the parser returned:
    only a dict has a [get]. *)
Definition config_get (cfg : yaml_value) : result (list string) :=
  match cfg with
  | YamlMapping entries => Ok (dict_get entries "top_level_domains" [])
  | YamlNone => Raise (AttributeError "'NoneType' object has no attribute 'get'")
  | YamlScalar _ => Raise (AttributeError "'str' object has no attribute 'get'")
  | YamlSequence _ => Raise (AttributeError "'list' object has no attribute 'get'")
  end.

(** [yaml.safe_load(file)] *)
Definition safe_load (w : world) (text : string) : result yaml_value :=
  match yaml_safe_load w text with
  | inl msg => Raise (YAMLError msg)
  | inr v => Ok v
  end.

(** ** The program *)

Definition load_config (w : world) (config_file : string) : M (list string) :=
  try_except
    (file <- lift (open_text w config_file) ;;
     cfg <- lift (safe_load w file) ;;
     lift (config_get cfg))
    isinstance_FileNotFoundError
    (ret []).

Definition load_strings (w : world) (input_file : string) : M (list string) :=
  try_except
    (file <- lift (open_text w input_file) ;;
     ret (map strip (filter (fun line => str_truthy (strip line)) (file_lines file))))
    isinstance_FileNotFoundError
    (ret []).

(** [whois.whois(domain)]: the call is recorded with its outcome. *)
Definition whois (w : world) (domain : string) : M unit :=
  fun t =>
    let o := whois_whois w t domain in
    match o with
    | WhoisRecord => (Ok tt, t ++ [EvWhois domain o])
    | WhoisFaults e => (Raise e, t ++ [EvWhois domain o])
    end.

Definition check_domain (w : world) (domain : string) : M bool :=
  try_except
    (whois w domain ;;; ret true)
    isinstance_Exception
    (ret false).

Definition generate_domain_combinations (base_strings tlds : list string)
    : list (string * string) :=
  flat_map (fun base => map (fun tld => (base +++ "." +++ tld, base)) tlds)
           base_strings.

(** [status_callback(arg)] *)
Definition call (cb : callback) (arg : string) : M unit :=
  emit (EvCallback arg) ;;;
  (fun t =>
     let '(lines, exn) := cb_body cb t arg in
     (print_all lines ;;;
      match exn with
      | None => ret tt
      | Some e => raise e
      end) t).

(** [if status_callback: status_callback(domain)] *)
Definition notify (status_callback : option callback) (domain : string) : M unit :=
  match status_callback with
  | None => ret tt
  | Some cb => if cb_truthy cb then call cb domain else ret tt
  end.

(** The loop of [find_available_domains], [available_domains] being the list
    built so far. *)
Fixpoint scan (w : world) (status_callback : option callback)
    (domain_combinations : list (string * string))
    (available_domains : list string) : M (list string) :=
  match domain_combinations with
  | [] => ret available_domains
  | (domain, base) :: rest =>
      notify status_callback domain ;;;
      registered <- check_domain w domain ;;
      scan w status_callback rest
           (if negb registered
            then available_domains ++ [domain]
            else available_domains)
  end.

Definition find_available_domains (w : world)
    (domain_combinations : list (string * string))
    (status_callback : option callback) : M (list string) :=
  scan w status_callback domain_combinations [].

Definition print_status (base : string) : M unit :=
  print ("Checking: " +++ base).

(** The function object [print_status] as a callback value: a function is
    always true, and a call prints one line and returns. *)
Definition print_status_callback : callback := {|
  cb_truthy := true;
  cb_body := fun _ base => (["Checking: " +++ base], None)
|}.

(** ["\n".join(lines)] *)
Fixpoint join_lines (lines : list string) : string :=
  match lines with
  | [] => EmptyString
  | [l] => l
  | l :: ls => l +++ String newline (join_lines ls)
  end.

Definition print_results (available_domains : list string) : M unit :=
  match available_domains with
  | _ :: _ =>
      print "Available domains:" ;;;
      print (join_lines available_domains)
  | [] => print "No available domains found."
  end.

Definition parse_arguments (w : world) : M Namespace := lift (cli w).

Definition main (w : world) : M unit :=
  args <- parse_arguments w ;;
  tlds <- load_config w (config args) ;;
  base_strings <- load_strings w (input_file args) ;;
  let domain_combinations := generate_domain_combinations base_strings tlds in
  available_domains <-
    find_available_domains w domain_combinations (Some print_status_callback) ;;
  print_results available_domains.

(** ** Sample worlds, used to run the program on concrete inputs *)

Fixpoint read_file (files : list (string * string)) (path : string)
    : result string :=
  match files with
  | [] => Raise FileNotFoundError
  | (p, text) :: rest => if String.eqb p path then Ok text else read_file rest path
  end.

Definition sample_config_text : string :=
  "top_level_domains:" +++ String newline ("  - com" +++ String newline
  ("  - net" +++ String newline EmptyString)).

Definition sample_input_text : string :=
  "test" +++ String newline (String newline ("  example  " +++ String newline
  ("   " +++ String newline EmptyString))).

(** A parser that agrees with PyYAML on the texts used here: the sample
    configuration, a configuration with one TLD, a configuration with another
    key, the empty document, and an unterminated flow sequence. *)
Definition sample_safe_load (text : string) : string + yaml_value :=
  if String.eqb text sample_config_text
  then inr (YamlMapping [("top_level_domains", ["com"; "net"])])
  else if String.eqb text "top_level_domains: [com]"
  then inr (YamlMapping [("top_level_domains", ["com"])])
  else if String.eqb text "tlds: [com]"
  then inr (YamlMapping [("tlds", ["com"])])
  else if String.eqb text ""
  then inr YamlNone
  else inl "while parsing a flow sequence".

(** A registry in which every domain but [test.net] has a record. *)
Definition sample_whois (_ : trace) (domain : string) : whois_outcome :=
  if String.eqb domain "test.net"
  then WhoisFaults (WhoisError "No match for TEST.NET")
  else WhoisRecord.

Definition sample_world (files : list (string * string)) : world := {|
  cli := Ok {| input_file := "names.txt"; config := "config.yaml" |};
  open_text := read_file files;
  yaml_safe_load := sample_safe_load;
  whois_whois := sample_whois
|}.

(** Both files present. *)
Definition demo_world : world :=
  sample_world [("config.yaml", sample_config_text); ("names.txt", sample_input_text)].

(** One base string, one TLD. *)
Definition single_world : world :=
  sample_world [("config.yaml", "top_level_domains: [com]"); ("names.txt", "test")].

(** The configuration file exists and is empty. *)
Definition empty_config_world : world :=
  sample_world [("config.yaml", ""); ("names.txt", sample_input_text)].

(** The configuration file is malformed and the input file is missing. *)
Definition malformed_config_world : world :=
  sample_world [("config.yaml", "top_level_domains: [com")].

(** A callback that raises on its second call. *)
Definition failing_callback : callback := {|
  cb_truthy := true;
  cb_body := fun t _ =>
    match t with
    | [_] => ([], None)
    | _ => ([], Some (OtherException "RuntimeError"))
    end
|}.

(** A callback that prints its argument and returns. *)
Definition echo_callback : callback := {|
  cb_truthy := true;
  cb_body := fun _ arg => ([arg], None)
|}.

(** ** Reading a trace *)

(** The calls made to the outside, without their outcomes. *)
Inductive call_shape : Type :=
| CallSink (arg : string)
| CallProbe (domain : string).

Fixpoint calls (tr : trace) : list call_shape :=
  match tr with
  | [] => []
  | EvCallback arg :: tr' => CallSink arg :: calls tr'
  | EvWhois domain _ :: tr' => CallProbe domain :: calls tr'
  | EvPrint _ :: tr' => calls tr'
  end.

(** What [check_domain] makes of the outcome of its query: the value it
    returns, or the exception it lets through. *)
Definition verdict (o : whois_outcome) : result bool :=
  match o with
  | WhoisRecord => Ok true
  | WhoisFaults e => if isinstance_Exception e then Ok false else Raise e
  end.

(** The probes of a trace, each with the value [check_domain] returned. *)
Fixpoint probes (tr : trace) : list (string * bool) :=
  match tr with
  | [] => []
  | EvWhois domain o :: tr' =>
      match verdict o with
      | Ok b => (domain, b) :: probes tr'
      | Raise _ => probes tr'
      end
  | _ :: tr' => probes tr'
  end.

(** The lines written to standard output. *)
Fixpoint stdout (tr : trace) : list string :=
  match tr with
  | [] => []
  | EvPrint text :: tr' => text :: stdout tr'
  | _ :: tr' => stdout tr'
  end.

(** [whois.whois] fails only with instances of [Exception]. *)
Definition ordinary_faults (w : world) : Prop :=
  forall t domain e,
    whois_whois w t domain = WhoisFaults e -> isinstance_Exception e = true.

(** The callback returns from every call. *)
Definition never_raises (cb : callback) : Prop :=
  forall t arg, snd (cb_body cb t arg) = None.

(** [l1] is a subsequence of [l2]: some elements dropped, order kept. *)
Inductive subsequence {A : Type} : list A -> list A -> Prop :=
| sub_nil : subsequence [] []
| sub_skip x l1 l2 : subsequence l1 l2 -> subsequence l1 (x :: l2)
| sub_keep x l1 l2 : subsequence l1 l2 -> subsequence (x :: l1) (x :: l2).

(** A line made of whitespace only. *)
Fixpoint blank (s : string) : bool :=
  match s with
  | EmptyString => true
  | String c s' => isspace c && blank s'
  end.

(** The first and the last character of a string. *)
Definition first_char (s : string) : option ascii :=
  match s with
  | EmptyString => None
  | String c _ => Some c
  end.

Fixpoint last_char (s : string) : option ascii :=
  match s with
  | EmptyString => None
  | String c EmptyString => Some c
  | String _ s' => last_char s'
  end.

(** ** Notions used in the statements *)

(** How a call of the callback ends. *)
Definition outcome_of (exn : option py_exception) : result unit :=
  match exn with
  | None => Ok tt
  | Some e => Raise e
  end.

(** Whether the callback is there and passes [if status_callback:]. *)
Definition supplied (status_callback : option callback) : bool :=
  match status_callback with
  | Some cb => cb_truthy cb
  | None => false
  end.

(** The callback call made for one candidate, if any. *)
Definition sink_calls (status_callback : option callback) (domain : string)
    : list call_shape :=
  if supplied status_callback then [CallSink domain] else [].

(** The sequence of calls a full scan makes: for every candidate in turn, the
    callback (if supplied) with the domain, then the probe of that domain. *)
Definition scan_pattern (status_callback : option callback)
    (domain_combinations : list (string * string)) : list call_shape :=
  flat_map (fun c => sink_calls status_callback (fst c) ++ [CallProbe (fst c)])
           domain_combinations.

(** The domains of the probes that [check_domain] answered [False], in order. *)
Definition available (ps : list (string * bool)) : list string :=
  map fst (filter (fun p => negb (snd p)) ps).

(** What [strip] leaves of a line that is not blank: no whitespace at either
    end. *)
Definition stripped (s : string) : Prop :=
  s <> EmptyString
  /\ (exists c, first_char s = Some c /\ isspace c = false)
  /\ (exists c, last_char s = Some c /\ isspace c = false).

(** [''.join(l)] *)
Fixpoint str_concat (l : list string) : string :=
  match l with
  | [] => EmptyString
  | s :: l' => s +++ str_concat l'
  end.

(** The string holds no line break. *)
Fixpoint no_newline (s : string) : bool :=
  match s with
  | EmptyString => true
  | String c s' => negb (Ascii.eqb c newline) && no_newline s'
  end.

(** [s.split("\n")]: the pieces between the line breaks. *)
Fixpoint split_newline (s : string) : list string :=
  match s with
  | EmptyString => [EmptyString]
  | String c s' =>
      if Ascii.eqb c newline
      then EmptyString :: split_newline s'
      else match split_newline s' with
           | [] => [String c EmptyString]
           | piece :: pieces => String c piece :: pieces
           end
  end.

(** A world in which the user interrupts the query on [test.net]. *)
Definition interrupted_world : world := {|
  cli := Ok {| input_file := "names.txt"; config := "config.yaml" |};
  open_text := read_file [("config.yaml", sample_config_text);
                          ("names.txt", sample_input_text)];
  yaml_safe_load := sample_safe_load;
  whois_whois := fun _ domain =>
    if String.eqb domain "test.net" then WhoisFaults KeyboardInterrupt
    else WhoisRecord
|}.

(** A world whose files exist and cannot be read. *)
Definition locked_world : world := {|
  cli := Ok {| input_file := "names.txt"; config := "config.yaml" |};
  open_text := fun _ => Raise PermissionError;
  yaml_safe_load := sample_safe_load;
  whois_whois := sample_whois
|}.

(** A callback that is false under [if status_callback:]. *)
Definition falsy_callback : callback := {|
  cb_truthy := false;
  cb_body := fun _ arg => ([arg], Some (OtherException "RuntimeError"))
|}.

(** A line of a file is free of line breaks, but for the one that may end
    it. *)
Definition line_shape (line : string) : Prop :=
  exists body,
    no_newline body = true
    /\ (line = body \/ line = body +++ String newline EmptyString).

(** * Theorems *)

(** ** The combination generator *)

Lemma flat_map_uniform_length {A B C : Type} (f : A -> B -> C)
    (l1 : list A) (l2 : list B) :
  length (flat_map (fun a => map (f a) l2) l1) = length l1 * length l2.
Proof.
  induction l1 as [|a l1 IH]; simpl; [reflexivity|].
  now rewrite length_app, length_map, IH.
Qed.

Lemma flat_map_uniform_nth {A B C : Type} (f : A -> B -> C)
    (l1 : list A) (l2 : list B) (da : A) (db : B) :
  forall i, i < length l1 * length l2 ->
    nth_error (flat_map (fun a => map (f a) l2) l1) i
    = Some (f (nth (i / length l2) l1 da) (nth (i mod length l2) l2 db)).
Proof.
  induction l1 as [|a l1 IH]; intros i Hi; simpl in *; [lia|].
  set (n := length l2) in *.
  assert (Hn : n <> 0) by (intro E; rewrite E in Hi; lia).
  destruct (Nat.lt_ge_cases i n) as [Hlt|Hge].
  - rewrite nth_error_app1 by (now rewrite length_map).
    rewrite Nat.div_small, Nat.mod_small by assumption.
    rewrite nth_error_map.
    rewrite (nth_error_nth' l2 db) by assumption.
    reflexivity.
  - rewrite nth_error_app2 by (now rewrite length_map).
    rewrite length_map. fold n.
    rewrite IH by lia.
    replace i with ((i - n) + 1 * n) at 3 4 by lia.
    rewrite Nat.div_add, Nat.Div0.mod_add by assumption.
    replace ((i - n) / n + 1) with (S ((i - n) / n)) by lia.
    reflexivity.
Qed.

Example generate_domain_combinations_sample :
  generate_domain_combinations ["test"; "example"] ["com"; "net"]
  = [("test.com", "test"); ("test.net", "test");
     ("example.com", "example"); ("example.net", "example")].
Proof. reflexivity. Qed.

(** C1: [generate_domain_combinations B T] has [|B| * |T|] pairs; the pair at
    index [i] is [(B[i // |T|] + "." + T[i % |T|], B[i // |T|])], both indices
    being in range; the result is empty when [B] or [T] is; and a repeated
    input yields repeated pairs. *)
Theorem generate_domain_combinations_spec (B T : list string) :
  length (generate_domain_combinations B T) = length B * length T
  /\ (forall i, i < length B * length T ->
        i / length T < length B /\ i mod length T < length T
        /\ nth_error (generate_domain_combinations B T) i
           = Some (nth (i / length T) B "" +++ "." +++ nth (i mod length T) T "",
                   nth (i / length T) B ""))
  /\ generate_domain_combinations [] T = []
  /\ generate_domain_combinations B [] = []
  /\ (forall b, generate_domain_combinations (b :: b :: B) T
        = map (fun tld => (b +++ "." +++ tld, b)) T
          ++ map (fun tld => (b +++ "." +++ tld, b)) T
          ++ generate_domain_combinations B T).
Proof.
  unfold generate_domain_combinations.
  split; [apply flat_map_uniform_length|].
  split.
  - intros i Hi.
    assert (HT : length T <> 0) by (intro E; rewrite E in Hi; lia).
    split; [apply Nat.Div0.div_lt_upper_bound; lia|].
    split; [apply Nat.mod_upper_bound; assumption|].
    apply (flat_map_uniform_nth (fun base tld => (base +++ "." +++ tld, base)));
      assumption.
  - split; [reflexivity|].
    split; [|intros b; reflexivity].
    induction B as [|b B IH]; simpl; [reflexivity|assumption].
Qed.

Lemma generate_domain_combinations_spec_witness :
  2 < length ["test"; "example"] * length ["com"; "net"]
  /\ nth_error (generate_domain_combinations ["test"; "example"] ["com"; "net"]) 2
     = Some ("example.com", "example").
Proof.
  split; [simpl; lia|].
  apply (proj1 (proj2 (generate_domain_combinations_spec
                         ["test"; "example"] ["com"; "net"])) 2).
  simpl; lia.
Defined.

(** ** The prober *)

Lemma check_domain_run (w : world) (domain : string) (t : trace) :
  check_domain w domain t
  = (verdict (whois_whois w t domain),
     t ++ [EvWhois domain (whois_whois w t domain)]).
Proof.
  unfold check_domain, try_except, bind, whois, verdict, ret.
  destruct (whois_whois w t domain) as [|e]; [reflexivity|].
  destruct (isinstance_Exception e); reflexivity.
Qed.

(** C3: [check_domain] makes exactly one query; it returns [True] if and only
    if the query came back without raising; and whenever the query raises an
    instance of [Exception], whichever it is, [check_domain] returns [False]
    and raises nothing. *)
Theorem check_domain_spec (w : world) (domain : string) (t : trace) :
  let o := whois_whois w t domain in
  snd (check_domain w domain t) = t ++ [EvWhois domain o]
  /\ (fst (check_domain w domain t) = Ok true <-> o = WhoisRecord)
  /\ (forall e, o = WhoisFaults e -> isinstance_Exception e = true ->
        check_domain w domain t = (Ok false, t ++ [EvWhois domain o])).
Proof.
  intros o. rewrite check_domain_run. fold o. simpl.
  split; [reflexivity|].
  split.
  - unfold verdict. destruct o as [|e]; [tauto|].
    destruct (isinstance_Exception e); split; discriminate.
  - intros e Ho He. rewrite Ho at 1. simpl. now rewrite He.
Qed.

Lemma check_domain_spec_witness :
  whois_whois demo_world [] "test.net" = WhoisFaults (WhoisError "No match for TEST.NET")
  /\ isinstance_Exception (WhoisError "No match for TEST.NET") = true
  /\ check_domain demo_world "test.net" []
     = (Ok false, [EvWhois "test.net" (WhoisFaults (WhoisError "No match for TEST.NET"))]).
Proof.
  split; [reflexivity|].
  split; [reflexivity|].
  apply (proj2 (proj2 (check_domain_spec demo_world "test.net" []))
           (WhoisError "No match for TEST.NET"));
    reflexivity.
Defined.

(** ** The aggregator *)

Lemma calls_app (t1 t2 : trace) : calls (t1 ++ t2) = calls t1 ++ calls t2.
Proof.
  induction t1 as [|[arg|text|domain o] t1 IH]; simpl; now rewrite ?IH.
Qed.

Lemma probes_app (t1 t2 : trace) : probes (t1 ++ t2) = probes t1 ++ probes t2.
Proof.
  induction t1 as [|[arg|text|domain o] t1 IH]; simpl; rewrite ?IH; trivial.
  destruct (verdict o); reflexivity.
Qed.

Lemma stdout_app (t1 t2 : trace) : stdout (t1 ++ t2) = stdout t1 ++ stdout t2.
Proof.
  induction t1 as [|[arg|text|domain o] t1 IH]; simpl; now rewrite ?IH.
Qed.

Lemma calls_prints (lines : list string) : calls (map EvPrint lines) = [].
Proof. induction lines; simpl; trivial. Qed.

Lemma probes_prints (lines : list string) : probes (map EvPrint lines) = [].
Proof. induction lines; simpl; trivial. Qed.

Lemma stdout_prints (lines : list string) : stdout (map EvPrint lines) = lines.
Proof. induction lines; simpl; congruence. Qed.

Lemma print_all_run (lines : list string) (t : trace) :
  print_all lines t = (Ok tt, t ++ map EvPrint lines).
Proof.
  revert t. induction lines as [|l ls IH]; intros t; simpl.
  - unfold ret. now rewrite app_nil_r.
  - unfold bind, print, emit. rewrite IH. now rewrite <- app_assoc.
Qed.

Lemma call_run (cb : callback) (arg : string) (t : trace) :
  call cb arg t
  = (outcome_of (snd (cb_body cb (t ++ [EvCallback arg]) arg)),
     t ++ [EvCallback arg] ++ map EvPrint (fst (cb_body cb (t ++ [EvCallback arg]) arg))).
Proof.
  unfold call, bind, emit.
  destruct (cb_body cb (t ++ [EvCallback arg]) arg) as [lines exn]; simpl.
  rewrite print_all_run, <- app_assoc. simpl.
  destruct exn; reflexivity.
Qed.

(** Calling the value [print_status_callback] is calling [print_status]. *)
Lemma call_print_status (arg : string) (t : trace) :
  call print_status_callback arg t
  = (emit (EvCallback arg) ;;; print_status arg) t.
Proof.
  rewrite call_run. simpl. unfold bind, emit, print_status, print, emit.
  now rewrite <- app_assoc.
Qed.

Lemma notify_run (status_callback : option callback) (domain : string) (t : trace) :
  exists tr,
    snd (notify status_callback domain t) = t ++ tr
    /\ calls tr = sink_calls status_callback domain
    /\ probes tr = [].
Proof.
  unfold notify, sink_calls, supplied.
  destruct status_callback as [cb|].
  - destruct (cb_truthy cb).
    + rewrite call_run. simpl. eexists. split; [reflexivity|].
      simpl. now rewrite calls_prints, probes_prints.
    + exists []. simpl. now rewrite app_nil_r.
  - exists []. simpl. now rewrite app_nil_r.
Qed.

Lemma notify_returns (status_callback : option callback) (domain : string) (t : trace) :
  (forall cb, status_callback = Some cb -> never_raises cb) ->
  fst (notify status_callback domain t) = Ok tt.
Proof.
  intros Hq. unfold notify.
  destruct status_callback as [cb|]; [|reflexivity].
  destruct (cb_truthy cb); [|reflexivity].
  rewrite call_run. simpl. now rewrite (Hq cb eq_refl).
Qed.

Lemma verdict_ordinary (w : world) (t : trace) (domain : string) :
  ordinary_faults w -> exists b, verdict (whois_whois w t domain) = Ok b.
Proof.
  intros Hw. unfold verdict.
  destruct (whois_whois w t domain) as [|e] eqn:E; [now exists true|].
  rewrite (Hw _ _ _ E). now exists false.
Qed.

Lemma available_app (p1 p2 : list (string * bool)) :
  available (p1 ++ p2) = available p1 ++ available p2.
Proof. unfold available. now rewrite filter_app, map_app. Qed.

Lemma available_subsequence (ps : list (string * bool)) :
  subsequence (available ps) (map fst ps).
Proof.
  unfold available.
  induction ps as [|[d b] ps IH]; simpl; [constructor|].
  destruct b; simpl; now constructor.
Qed.

Lemma scan_cons (w : world) (cb : option callback) (domain base : string)
    (cs : list (string * string)) (acc : list string) (t : trace) :
  scan w cb ((domain, base) :: cs) acc t
  = match notify cb domain t with
    | (Ok _, t0) =>
        match check_domain w domain t0 with
        | (Ok registered, t1) =>
            scan w cb cs (if negb registered then acc ++ [domain] else acc) t1
        | (Raise e, t1) => (Raise e, t1)
        end
    | (Raise e, t0) => (Raise e, t0)
    end.
Proof. reflexivity. Qed.

(** One pass of the loop, for any list built so far and any history. *)
Lemma scan_run (w : world) (cb : option callback) (cs : list (string * string)) :
  forall (acc : list string) (t : trace),
  exists tr,
    snd (scan w cb cs acc t) = t ++ tr
    /\ (exists rest, scan_pattern cb cs = calls tr ++ rest)
    /\ (forall r, fst (scan w cb cs acc t) = Ok r ->
          calls tr = scan_pattern cb cs
          /\ map fst (probes tr) = map fst cs
          /\ r = acc ++ available (probes tr)).
Proof.
  induction cs as [|[domain base] cs IH]; intros acc t.
  - exists []. simpl. rewrite app_nil_r. split; [reflexivity|]. split; [now exists []|].
    intros r Hr. injection Hr as <-. now rewrite app_nil_r.
  - rewrite scan_cons.
    destruct (notify_run cb domain t) as (tr0 & Ht0 & Hc0 & Hp0).
    destruct (notify cb domain t) as [[[]|e] t0] eqn:En; simpl in Ht0; subst t0.
    + rewrite check_domain_run.
      set (o := whois_whois w (t ++ tr0) domain).
      destruct (verdict o) as [registered|e] eqn:Ev.
      * destruct (IH (if negb registered then acc ++ [domain] else acc)
                     ((t ++ tr0) ++ [EvWhois domain o])) as (tr1 & Ht1 & [rest Hpre] & Hok).
        exists (tr0 ++ [EvWhois domain o] ++ tr1).
        split; [rewrite Ht1; now rewrite <- !app_assoc|].
        rewrite !calls_app, !probes_app. simpl. rewrite Ev, Hc0, Hp0. simpl.
        split.
        -- exists rest. rewrite Hpre, <- !app_assoc. reflexivity.
        -- intros r Hr. destruct (Hok r Hr) as (Hc & Hp & Hres).
           rewrite Hc, Hp. split; [now rewrite <- app_assoc|]. split; [reflexivity|].
           rewrite Hres.
           change ((domain, registered) :: probes tr1)
             with ([(domain, registered)] ++ probes tr1).
           rewrite available_app. unfold available at 2.
           destruct registered; simpl; [reflexivity|].
           now rewrite <- app_assoc.
      * exists (tr0 ++ [EvWhois domain o]). simpl.
        split; [now rewrite <- app_assoc|].
        split; [|discriminate].
        exists (scan_pattern cb cs). rewrite calls_app, Hc0. simpl.
        now rewrite <- app_assoc.
    + exists tr0. simpl. split; [reflexivity|]. split; [|discriminate].
      rewrite Hc0. eexists. rewrite <- app_assoc. reflexivity.
Qed.

(** The scan returns when nothing it calls lets an exception through. *)
Lemma scan_returns (w : world) (cb : option callback) (cs : list (string * string)) :
  ordinary_faults w ->
  (forall c, cb = Some c -> never_raises c) ->
  forall (acc : list string) (t : trace),
    exists r, fst (scan w cb cs acc t) = Ok r.
Proof.
  intros Hw Hq.
  induction cs as [|[domain base] cs IH]; intros acc t.
  - now exists acc.
  - rewrite scan_cons.
    pose proof (notify_returns cb domain t Hq) as Hn.
    destruct (notify cb domain t) as [[[]|e] t0]; simpl in Hn; [|discriminate].
    rewrite check_domain_run.
    destruct (verdict_ordinary w t0 domain Hw) as [b ->].
    apply IH.
Qed.

Lemma scan_app (w : world) (cb : option callback) (pre post : list (string * string)) :
  forall (acc : list string) (t : trace),
    scan w cb (pre ++ post) acc t
    = (acc' <- scan w cb pre acc ;; scan w cb post acc') t.
Proof.
  induction pre as [|[domain base] pre IH]; intros acc t; [reflexivity|].
  simpl app. unfold bind at 1. rewrite !scan_cons.
  destruct (notify cb domain t) as [[[]|e] t0]; [|reflexivity].
  destruct (check_domain w domain t0) as [[registered|e] t1]; [|reflexivity].
  rewrite IH. reflexivity.
Qed.

(** C2: whenever [find_available_domains] returns, every candidate has been
    probed once, in input order, and the list returned is made of exactly the
    domains for which [check_domain] returned [False], in that order; it is a
    subsequence of the input domains.  It does return as soon as the probe
    fails only with instances of [Exception] and the callback, if any,
    returns. *)
Theorem find_available_domains_spec (w : world) (cs : list (string * string))
    (cb : option callback) (t : trace) :
  (forall r t', find_available_domains w cs cb t = (Ok r, t') ->
     exists tr,
       t' = t ++ tr
       /\ map fst (probes tr) = map fst cs
       /\ r = map fst (filter (fun p => negb (snd p)) (probes tr))
       /\ subsequence r (map fst cs))
  /\ (ordinary_faults w ->
      (forall c, cb = Some c -> never_raises c) ->
      exists r t', find_available_domains w cs cb t = (Ok r, t')).
Proof.
  unfold find_available_domains. split.
  - intros r t' Hrun.
    destruct (scan_run w cb cs [] t) as (tr & Ht & _ & Hok).
    rewrite Hrun in Ht, Hok. simpl in Ht, Hok.
    destruct (Hok r eq_refl) as (_ & Hp & Hr). simpl in Hr.
    exists tr. repeat split; try assumption.
    rewrite Hr, <- Hp. apply available_subsequence.
  - intros Hw Hq.
    destruct (scan_returns w cb cs Hw Hq [] t) as [r Hr].
    destruct (scan w cb cs [] t) as [res t']. simpl in Hr. subst res.
    now exists r, t'.
Qed.

Lemma sample_whois_ordinary (files : list (string * string)) :
  ordinary_faults (sample_world files).
Proof.
  intros t domain e. simpl. unfold sample_whois.
  destruct (String.eqb domain "test.net"); [|discriminate].
  intros H. injection H as <-. reflexivity.
Qed.

Lemma find_available_domains_spec_witness :
  find_available_domains demo_world
    [("test.com", "test"); ("test.net", "test"); ("example.com", "example")] None []
  = (Ok ["test.net"],
     [EvWhois "test.com" WhoisRecord;
      EvWhois "test.net" (WhoisFaults (WhoisError "No match for TEST.NET"));
      EvWhois "example.com" WhoisRecord])
  /\ exists tr,
       [EvWhois "test.com" WhoisRecord;
        EvWhois "test.net" (WhoisFaults (WhoisError "No match for TEST.NET"));
        EvWhois "example.com" WhoisRecord] = [] ++ tr
       /\ map fst (probes tr) = ["test.com"; "test.net"; "example.com"]
       /\ ["test.net"] = map fst (filter (fun p => negb (snd p)) (probes tr))
       /\ subsequence ["test.net"] ["test.com"; "test.net"; "example.com"].
Proof.
  split; [reflexivity|].
  apply (proj1 (find_available_domains_spec demo_world
                  [("test.com", "test"); ("test.net", "test"); ("example.com", "example")]
                  None [])).
  reflexivity.
Defined.

Lemma scan_pattern_supplied (cb : callback) (cs : list (string * string)) :
  cb_truthy cb = true ->
  scan_pattern (Some cb) cs
  = flat_map (fun c => [CallSink (fst c); CallProbe (fst c)]) cs.
Proof.
  intros Hb. unfold scan_pattern, sink_calls, supplied. rewrite Hb. reflexivity.
Qed.

(** C5: with a callback supplied, the calls made by [find_available_domains]
    are always an initial part of: callback on the first domain, probe of the
    first domain, callback on the second domain, probe of the second domain,
    and so on in input order; they are the whole of it whenever the function
    returns, which it does when the callback returns from every call and the
    probe fails only with instances of [Exception].  So each candidate gets
    one callback call, with its full domain name, right before its probe. *)
Theorem callback_precedes_each_probe (w : world) (cs : list (string * string))
    (cb : callback) (t : trace) :
  cb_truthy cb = true ->
  exists tr,
    snd (find_available_domains w cs (Some cb) t) = t ++ tr
    /\ (exists rest,
          flat_map (fun c => [CallSink (fst c); CallProbe (fst c)]) cs
          = calls tr ++ rest)
    /\ (is_ok (fst (find_available_domains w cs (Some cb) t)) = true ->
          calls tr = flat_map (fun c => [CallSink (fst c); CallProbe (fst c)]) cs)
    /\ (ordinary_faults w -> never_raises cb ->
          is_ok (fst (find_available_domains w cs (Some cb) t)) = true).
Proof.
  intros Hb. unfold find_available_domains.
  destruct (scan_run w (Some cb) cs [] t) as (tr & Ht & Hpre & Hok).
  rewrite (scan_pattern_supplied cb cs Hb) in Hpre, Hok.
  exists tr. split; [assumption|]. split; [assumption|]. split.
  - destruct (fst (scan w (Some cb) cs [] t)) as [r|e]; [|discriminate].
    intros _. apply (Hok r eq_refl).
  - intros Hw Hq.
    destruct (scan_returns w (Some cb) cs Hw) with (acc := @nil string) (t := t)
      as [r ->]; [|reflexivity].
    intros c Hc. injection Hc as <-. assumption.
Qed.

Lemma callback_precedes_each_probe_witness :
  cb_truthy echo_callback = true
  /\ exists tr,
       snd (find_available_domains demo_world
              [("test.com", "test"); ("test.net", "test")] (Some echo_callback) [])
       = [] ++ tr
       /\ (exists rest,
             [CallSink "test.com"; CallProbe "test.com";
              CallSink "test.net"; CallProbe "test.net"] = calls tr ++ rest)
       /\ (is_ok (fst (find_available_domains demo_world
                         [("test.com", "test"); ("test.net", "test")]
                         (Some echo_callback) [])) = true ->
           calls tr = [CallSink "test.com"; CallProbe "test.com";
                       CallSink "test.net"; CallProbe "test.net"])
       /\ (ordinary_faults demo_world -> never_raises echo_callback ->
           is_ok (fst (find_available_domains demo_world
                         [("test.com", "test"); ("test.net", "test")]
                         (Some echo_callback) [])) = true).
Proof.
  split; [reflexivity|].
  apply (callback_precedes_each_probe demo_world
           [("test.com", "test"); ("test.net", "test")] echo_callback []).
  reflexivity.
Defined.

(** C6: if the scan of the candidates before the i-th returns and the
    callback then raises on the i-th domain, [find_available_domains] ends by
    raising that very exception: no list is returned, and after the callback
    call on the i-th domain nothing more is called, so neither the i-th nor
    any later candidate is probed. *)
Theorem callback_fault_aborts (w : world) (cb : callback)
    (pre post : list (string * string)) (domain base : string)
    (t t1 : trace) (r1 : list string) (lines : list string) (e : py_exception) :
  cb_truthy cb = true ->
  find_available_domains w pre (Some cb) t = (Ok r1, t1) ->
  cb_body cb (t1 ++ [EvCallback domain]) domain = (lines, Some e) ->
  find_available_domains w (pre ++ (domain, base) :: post) (Some cb) t
  = (Raise e, t1 ++ [EvCallback domain] ++ map EvPrint lines)
  /\ exists tr,
       t1 ++ [EvCallback domain] ++ map EvPrint lines = t ++ tr
       /\ calls tr
          = flat_map (fun c => [CallSink (fst c); CallProbe (fst c)]) pre
            ++ [CallSink domain]
       /\ map fst (probes tr) = map fst pre.
Proof.
  unfold find_available_domains. intros Hb Hpre Hcb.
  split.
  - rewrite scan_app. unfold bind at 1. rewrite Hpre, scan_cons.
    unfold notify. rewrite Hb, call_run, Hcb. reflexivity.
  - destruct (scan_run w (Some cb) pre [] t) as (tr & Ht & _ & Hok).
    rewrite Hpre in Ht, Hok. simpl in Ht, Hok.
    destruct (Hok r1 eq_refl) as (Hc & Hp & _).
    rewrite (scan_pattern_supplied cb pre Hb) in Hc.
    exists (tr ++ [EvCallback domain] ++ map EvPrint lines).
    split; [rewrite Ht; now rewrite <- app_assoc|].
    rewrite calls_app, probes_app. simpl.
    rewrite calls_prints, probes_prints, app_nil_r, Hc, Hp.
    split; reflexivity.
Qed.

Lemma callback_fault_aborts_witness :
  cb_truthy failing_callback = true
  /\ find_available_domains demo_world [("test.com", "test")] (Some failing_callback) []
     = (Ok [], [EvCallback "test.com"; EvWhois "test.com" WhoisRecord])
  /\ cb_body failing_callback
       ([EvCallback "test.com"; EvWhois "test.com" WhoisRecord] ++ [EvCallback "test.net"])
       "test.net"
     = ([], Some (OtherException "RuntimeError"))
  /\ find_available_domains demo_world
       ([("test.com", "test")] ++ ("test.net", "test") :: [("example.com", "example")])
       (Some failing_callback) []
     = (Raise (OtherException "RuntimeError"),
        [EvCallback "test.com"; EvWhois "test.com" WhoisRecord]
        ++ [EvCallback "test.net"] ++ map EvPrint []).
Proof.
  split; [reflexivity|].
  split; [reflexivity|].
  split; [reflexivity|].
  apply (proj1 (callback_fault_aborts demo_world failing_callback
                  [("test.com", "test")] [("example.com", "example")]
                  "test.net" "test" []
                  [EvCallback "test.com"; EvWhois "test.com" WhoisRecord]
                  [] [] (OtherException "RuntimeError")
                  eq_refl eq_refl eq_refl)).
Defined.

(** ** Strings: [strip] and the lines of a file *)

Lemma str_app_assoc (a b c : string) : (a +++ b) +++ c = a +++ b +++ c.
Proof. induction a as [|x a IH]; simpl; [reflexivity|now rewrite IH]. Qed.

Lemma str_app_nil_r (a : string) : a +++ EmptyString = a.
Proof. induction a as [|x a IH]; simpl; [reflexivity|now rewrite IH]. Qed.

Lemma last_char_nonspace_not_blank (s : string) (c : ascii) :
  last_char s = Some c -> isspace c = false -> blank s = false.
Proof.
  induction s as [|x s IH]; simpl; [discriminate|].
  destruct s as [|y s].
  - intros H Hc. injection H as ->. now rewrite Hc.
  - intros H Hc. rewrite (IH H Hc). apply andb_false_r.
Qed.

Lemma rstrip_blank (s : string) : blank s = true -> rstrip s = EmptyString.
Proof.
  induction s as [|x s IH]; simpl; [reflexivity|].
  intros H. apply andb_true_iff in H as [Hx Hs].
  now rewrite (IH Hs), Hx.
Qed.

Lemma rstrip_nonblank (s : string) :
  blank s = false ->
  exists c, last_char (rstrip s) = Some c /\ isspace c = false.
Proof.
  induction s as [|x s IH]; simpl; [discriminate|].
  intros H. destruct (blank s) eqn:Hs.
  - rewrite (rstrip_blank s Hs).
    rewrite andb_true_r in H. rewrite H. now exists x.
  - destruct (IH eq_refl) as (c & Hl & Hc).
    destruct (rstrip s) as [|y r]; [discriminate|].
    now exists c.
Qed.

Lemma rstrip_suffix (s : string) :
  exists post, s = rstrip s +++ post /\ blank post = true.
Proof.
  induction s as [|x s (post & Hs & Hb)]; simpl.
  - now exists EmptyString.
  - destruct (rstrip s) as [|y r] eqn:Er.
    + simpl in Hs. subst post.
      destruct (isspace x) eqn:Hx.
      * exists (String x s). simpl. now rewrite Hx, Hb.
      * now exists s.
    + exists post. simpl. split; [|assumption]. now rewrite Hs at 1.
Qed.

Lemma lstrip_nonblank (s : string) :
  blank s = false ->
  (exists c, first_char (lstrip s) = Some c /\ isspace c = false)
  /\ last_char (lstrip s) = last_char s.
Proof.
  induction s as [|x s IH]; simpl; [discriminate|].
  destruct (isspace x) eqn:Hx; simpl.
  - intros Hs. destruct (IH Hs) as [Hf Hl]. split; [assumption|].
    rewrite Hl. destruct s; [discriminate|reflexivity].
  - intros _. split; [now exists x|reflexivity].
Qed.

Lemma lstrip_blank (s : string) : blank s = true -> lstrip s = EmptyString.
Proof.
  induction s as [|x s IH]; simpl; [reflexivity|].
  intros H. apply andb_true_iff in H as [Hx Hs]. now rewrite Hx, IH.
Qed.

Lemma lstrip_prefix (s : string) :
  exists pre, s = pre +++ lstrip s /\ blank pre = true.
Proof.
  induction s as [|x s (pre & Hs & Hb)]; simpl.
  - now exists EmptyString.
  - destruct (isspace x) eqn:Hx.
    + exists (String x pre). simpl. rewrite Hx, Hb. now rewrite <- Hs.
    + now exists EmptyString.
Qed.

(** A line survives the test [if line.strip()] exactly when it is not made
    of whitespace only. *)
Lemma str_truthy_strip (s : string) : str_truthy (strip s) = negb (blank s).
Proof.
  unfold strip. destruct (blank s) eqn:Hs.
  - now rewrite (rstrip_blank s Hs).
  - destruct (rstrip_nonblank s Hs) as (c & Hl & Hc).
    pose proof (last_char_nonspace_not_blank _ _ Hl Hc) as Hr.
    destruct (lstrip_nonblank _ Hr) as [(d & Hf & _) _].
    destruct (lstrip (rstrip s)); [discriminate|reflexivity].
Qed.

Lemma strip_nonblank (s : string) : blank s = false -> stripped (strip s).
Proof.
  intros Hs. unfold stripped, strip.
  destruct (rstrip_nonblank s Hs) as (c & Hl & Hc).
  pose proof (last_char_nonspace_not_blank _ _ Hl Hc) as Hr.
  destruct (lstrip_nonblank _ Hr) as [(d & Hf & Hd) Hlast].
  split; [destruct (lstrip (rstrip s)); [discriminate|discriminate]|].
  split; [now exists d|].
  exists c. now rewrite Hlast.
Qed.

(** [strip] removes a run of whitespace at each end and nothing else. *)
Lemma strip_decompose (s : string) :
  exists pre post,
    s = pre +++ strip s +++ post /\ blank pre = true /\ blank post = true.
Proof.
  destruct (rstrip_suffix s) as (post & Hs & Hpost).
  destruct (lstrip_prefix (rstrip s)) as (pre & Hr & Hpre).
  exists pre, post. unfold strip. split; [|now split].
  rewrite <- str_app_assoc, <- Hr. exact Hs.
Qed.

(** The lines of a file, put end to end, are the file. *)
Lemma lines_from_concat (s cur : string) :
  str_concat (lines_from cur s) = cur +++ s.
Proof.
  revert cur. induction s as [|x s IH]; intros cur; simpl.
  - destruct cur; simpl; [reflexivity|]. now rewrite !str_app_nil_r.
  - destruct (Ascii.eqb x newline); simpl.
    + rewrite IH. simpl. now rewrite str_app_assoc.
    + rewrite IH. now rewrite str_app_assoc.
Qed.

Example file_lines_sample :
  file_lines sample_input_text
  = ["test" +++ String newline EmptyString;
     String newline EmptyString;
     "  example  " +++ String newline EmptyString;
     "   " +++ String newline EmptyString]
  /\ file_lines "test" = ["test"]
  /\ file_lines EmptyString = [].
Proof. repeat split. Qed.

(** ** The loaders *)

Lemma load_strings_run (w : world) (path : string) (t : trace) :
  load_strings w path t
  = (match open_text w path with
     | Ok content =>
         Ok (map strip (filter (fun line => negb (blank line)) (file_lines content)))
     | Raise e => if isinstance_FileNotFoundError e then Ok [] else Raise e
     end, t).
Proof.
  unfold load_strings, try_except, bind, lift, ret.
  destruct (open_text w path) as [content|e].
  - now rewrite (filter_ext _ _ str_truthy_strip).
  - destruct (isinstance_FileNotFoundError e); reflexivity.
Qed.

Lemma load_config_run (w : world) (path : string) (t : trace) :
  load_config w path t
  = (match open_text w path with
     | Ok content =>
         match yaml_safe_load w content with
         | inl msg => Raise (YAMLError msg)
         | inr cfg => config_get cfg
         end
     | Raise e => if isinstance_FileNotFoundError e then Ok [] else Raise e
     end, t).
Proof.
  unfold load_config, try_except, bind, lift, ret, safe_load.
  destruct (open_text w path) as [content|e].
  - destruct (yaml_safe_load w content) as [msg|cfg]; [reflexivity|].
    destruct cfg; reflexivity.
  - destruct (isinstance_FileNotFoundError e); reflexivity.
Qed.

Lemma dict_get_absent (entries : list (string * list string)) (key : string)
    (default : list string) :
  ~ In key (map fst entries) -> dict_get entries key default = default.
Proof.
  induction entries as [|[k v] entries IH]; simpl; [reflexivity|].
  intros H. destruct (String.eqb_spec k key) as [->|_]; [tauto|].
  apply IH. tauto.
Qed.

(** A missing configuration file gives the empty list. *)
Lemma load_config_missing_file (w : world) (path : string) (t : trace) :
  open_text w path = Raise FileNotFoundError ->
  load_config w path t = (Ok [], t).
Proof. intros H. now rewrite load_config_run, H. Qed.

(** A configuration that is a dict without the key gives the empty list. *)
Lemma load_config_missing_key (w : world) (path content : string)
    (entries : list (string * list string)) (t : trace) :
  open_text w path = Ok content ->
  yaml_safe_load w content = inr (YamlMapping entries) ->
  ~ In "top_level_domains" (map fst entries) ->
  load_config w path t = (Ok [], t).
Proof.
  intros Ho Hp Hk. rewrite load_config_run, Ho, Hp. simpl.
  now rewrite dict_get_absent.
Qed.

(** A configuration that parses to anything but a dict (an empty document
    parses to [None]) has no key at all, and [load_config] raises. *)
Lemma load_config_not_a_dict (w : world) (path content : string)
    (cfg : yaml_value) (t : trace) :
  open_text w path = Ok content ->
  yaml_safe_load w content = inr cfg ->
  (forall entries, cfg <> YamlMapping entries) ->
  exists msg, load_config w path t = (Raise (AttributeError msg), t).
Proof.
  intros Ho Hp Hc. rewrite load_config_run, Ho, Hp.
  destruct cfg as [|s|items|entries]; simpl; try (eexists; reflexivity).
  now destruct (Hc entries).
Qed.

(** C7: on a configuration file that exists and is empty, the document parses
    to [None], which holds no [top_level_domains] key, and [load_config]
    raises [AttributeError] instead of returning the empty list. *)
Theorem load_config_empty_document_raises :
  open_text empty_config_world "config.yaml" = Ok EmptyString
  /\ yaml_safe_load empty_config_world EmptyString = inr YamlNone
  /\ load_config empty_config_world "config.yaml" []
     = (Raise (AttributeError "'NoneType' object has no attribute 'get'"), []).
Proof. repeat split. Qed.

(** C8: when the configuration file is there and [yaml.safe_load] raises on
    its text, [load_config] raises that [YAMLError], and so does [main],
    before anything is read, probed or printed. *)
Theorem malformed_config_propagates (w : world) (path content msg : string)
    (t : trace) :
  open_text w path = Ok content ->
  yaml_safe_load w content = inl msg ->
  load_config w path t = (Raise (YAMLError msg), t)
  /\ (forall args, cli w = Ok args -> config args = path ->
        main w t = (Raise (YAMLError msg), t)).
Proof.
  intros Ho Hp.
  assert (Hl : load_config w path t = (Raise (YAMLError msg), t))
    by now rewrite load_config_run, Ho, Hp.
  split; [assumption|].
  intros args Hc Hpath.
  unfold main, parse_arguments, lift, bind at 1. rewrite Hc.
  unfold bind at 1. now rewrite Hpath, Hl.
Qed.

Lemma malformed_config_propagates_witness :
  open_text malformed_config_world "config.yaml" = Ok "top_level_domains: [com"
  /\ yaml_safe_load malformed_config_world "top_level_domains: [com"
     = inl "while parsing a flow sequence"
  /\ load_config malformed_config_world "config.yaml" []
     = (Raise (YAMLError "while parsing a flow sequence"), [])
  /\ main malformed_config_world []
     = (Raise (YAMLError "while parsing a flow sequence"), []).
Proof.
  split; [reflexivity|].
  split; [reflexivity|].
  destruct (malformed_config_propagates malformed_config_world "config.yaml"
              "top_level_domains: [com" "while parsing a flow sequence" []
              eq_refl eq_refl) as [Hl Hm].
  split; [exact Hl|].
  exact (Hm {| input_file := "names.txt"; config := "config.yaml" |} eq_refl eq_refl).
Defined.

(** C9, as the program has it: [load_strings] returns the stripped text of
    every line that is not blank, in file order; it returns the empty list
    when the file is missing; and a run whose input file is missing and whose
    configuration loads has no candidate, probes nothing, finds nothing and
    ends normally after printing that nothing was found. *)
Theorem load_strings_spec (w : world) (path : string) (t : trace) :
  (forall content, open_text w path = Ok content ->
     load_strings w path t
     = (Ok (map strip (filter (fun line => negb (blank line)) (file_lines content))), t))
  /\ (open_text w path = Raise FileNotFoundError ->
      load_strings w path t = (Ok [], t)
      /\ forall args tlds,
           cli w = Ok args -> input_file args = path ->
           load_config w (config args) t = (Ok tlds, t) ->
           generate_domain_combinations [] tlds = []
           /\ find_available_domains w [] (Some print_status_callback) t = (Ok [], t)
           /\ main w t = (Ok tt, t ++ [EvPrint "No available domains found."])).
Proof.
  split.
  - intros content Ho. now rewrite load_strings_run, Ho.
  - intros Ho.
    assert (Hl : load_strings w path t = (Ok [], t))
      by now rewrite load_strings_run, Ho.
    split; [assumption|].
    intros args tlds Hc Hpath Hcfg.
    split; [reflexivity|]. split; [reflexivity|].
    unfold main, parse_arguments, lift, bind at 1. rewrite Hc.
    unfold bind at 1. rewrite Hcfg.
    unfold bind at 1. rewrite Hpath, Hl.
    reflexivity.
Qed.

Lemma load_strings_spec_witness :
  open_text (sample_world [("config.yaml", "tlds: [com]")]) "names.txt"
  = Raise FileNotFoundError
  /\ load_strings (sample_world [("config.yaml", "tlds: [com]")]) "names.txt" []
     = (Ok [], [])
  /\ main (sample_world [("config.yaml", "tlds: [com]")]) []
     = (Ok tt, [] ++ [EvPrint "No available domains found."]).
Proof.
  split; [reflexivity|].
  destruct (proj2 (load_strings_spec (sample_world [("config.yaml", "tlds: [com]")])
                     "names.txt" []) eq_refl) as [Hl Hrun].
  split; [exact Hl|].
  exact (proj2 (proj2 (Hrun {| input_file := "names.txt"; config := "config.yaml" |}
                         [] eq_refl eq_refl eq_refl))).
Defined.

(** C9 as stated fails: with the input file missing and the configuration
    file malformed, the run ends with a [YAMLError]. *)
Lemma missing_input_run_counterexample :
  cli malformed_config_world
  = Ok {| input_file := "names.txt"; config := "config.yaml" |}
  /\ open_text malformed_config_world "names.txt" = Raise FileNotFoundError
  /\ main malformed_config_world []
     = (Raise (YAMLError "while parsing a flow sequence"), [])
  /\ ~ (forall w args t,
          cli w = Ok args ->
          open_text w (input_file args) = Raise FileNotFoundError ->
          is_ok (fst (main w t)) = true).
Proof.
  split; [reflexivity|]. split; [reflexivity|]. split; [reflexivity|].
  intros H.
  specialize (H malformed_config_world
                {| input_file := "names.txt"; config := "config.yaml" |} []
                eq_refl eq_refl).
  discriminate H.
Qed.

(** C10: every string [load_strings] returns is the [strip] of a line that is
    not made of whitespace only; it is not empty and has no whitespace at
    either end; [strip] takes a run of whitespace off each end of the line and
    nothing else; lines of whitespace are dropped like empty ones; and the
    stripped string is what the domain names are built from. *)
Theorem load_strings_strips (w : world) (path content : string) (t : trace) :
  open_text w path = Ok content ->
  exists kept,
    kept = filter (fun line => negb (blank line)) (file_lines content)
    /\ load_strings w path t = (Ok (map strip kept), t)
    /\ Forall stripped (map strip kept)
    /\ (forall line, blank line = true -> ~ In line kept)
    /\ (forall line, exists pre post,
          line = pre +++ strip line +++ post
          /\ blank pre = true /\ blank post = true)
    /\ strip "  example  " = "example"
    /\ (forall tld, generate_domain_combinations [strip "  example  "] [tld]
                    = [("example." +++ tld, "example")]).
Proof.
  intros Ho. eexists. split; [reflexivity|].
  split; [now rewrite load_strings_run, Ho|].
  split.
  - apply Forall_forall. intros s Hs.
    apply in_map_iff in Hs as (line & <- & Hin).
    apply filter_In in Hin as [_ Hb].
    apply strip_nonblank. now destruct (blank line).
  - split.
    + intros line Hb Hin. apply filter_In in Hin as [_ Hn].
      rewrite Hb in Hn. discriminate.
    + split; [apply strip_decompose|]. split; reflexivity.
Qed.

Lemma load_strings_strips_witness :
  open_text demo_world "names.txt" = Ok sample_input_text
  /\ load_strings demo_world "names.txt" [] = (Ok ["test"; "example"], []).
Proof.
  split; [reflexivity|].
  destruct (load_strings_strips demo_world "names.txt" sample_input_text []
              eq_refl) as (kept & Hk & Hl & _).
  rewrite Hl, Hk. reflexivity.
Defined.

(** ** The progress lines of a run *)

Lemma notify_print_status (domain : string) (t : trace) :
  notify (Some print_status_callback) domain t
  = (Ok tt, t ++ [EvCallback domain; EvPrint ("Checking: " +++ domain)]).
Proof.
  change (notify (Some print_status_callback) domain t)
    with (call print_status_callback domain t).
  rewrite call_run. reflexivity.
Qed.

(** With [print_status] as the callback, a scan that returns has printed one
    line per candidate, made of ["Checking: "] and the candidate's domain. *)
Lemma scan_progress_lines (w : world) (cs : list (string * string)) :
  forall (acc : list string) (t : trace),
  exists tr,
    snd (scan w (Some print_status_callback) cs acc t) = t ++ tr
    /\ (forall r, fst (scan w (Some print_status_callback) cs acc t) = Ok r ->
          stdout tr = map (fun c => "Checking: " +++ fst c) cs).
Proof.
  induction cs as [|[domain base] cs IH]; intros acc t.
  - exists []. simpl. now rewrite app_nil_r.
  - rewrite scan_cons, notify_print_status, check_domain_run.
    set (t1 := t ++ [EvCallback domain; EvPrint ("Checking: " +++ domain)]).
    set (o := whois_whois w t1 domain).
    destruct (verdict o) as [registered|e].
    + destruct (IH (if negb registered then acc ++ [domain] else acc)
                   (t1 ++ [EvWhois domain o])) as (tr1 & Ht1 & Hok).
      exists ([EvCallback domain; EvPrint ("Checking: " +++ domain);
               EvWhois domain o] ++ tr1).
      split.
      * rewrite Ht1. unfold t1. simpl. now rewrite <- !app_assoc.
      * intros r Hr. simpl. now rewrite (Hok r Hr).
    + exists [EvCallback domain; EvPrint ("Checking: " +++ domain);
              EvWhois domain o].
      split; [|discriminate].
      unfold t1. simpl. now rewrite <- !app_assoc.
Qed.

(** C4: run on the single base string [test] and the single TLD [com], the
    program makes the candidate [("test.com", "test")] and prints
    ["Checking: test.com"], the domain, before probing it; the line naming
    the base string would be ["Checking: test"]. *)
Theorem progress_line_names_domain :
  load_strings single_world "names.txt" [] = (Ok ["test"], [])
  /\ load_config single_world "config.yaml" [] = (Ok ["com"], [])
  /\ generate_domain_combinations ["test"] ["com"] = [("test.com", "test")]
  /\ main single_world []
     = (Ok tt, [EvCallback "test.com";
                EvPrint "Checking: test.com";
                EvWhois "test.com" WhoisRecord;
                EvPrint "No available domains found."])
  /\ "Checking: test.com" <> "Checking: " +++ "test".
Proof.
  repeat split. discriminate.
Qed.

(** * Further properties of the program *)

(** ** More on the combination generator *)

Lemma str_app_inv_head (a b c : string) : a +++ b = a +++ c -> b = c.
Proof.
  induction a as [|x a IH]; simpl; [trivial|].
  intros H. injection H as H. now apply IH.
Qed.

Lemma generated_pair_base (B T : list string) (domain base : string) :
  In (domain, base) (generate_domain_combinations B T) -> In base B.
Proof.
  unfold generate_domain_combinations. rewrite in_flat_map.
  intros (b & Hb & Hin). apply in_map_iff in Hin as (tld & Heq & _).
  now injection Heq as _ <-.
Qed.

(** X1: a pair is generated exactly when its second component is one of the
    base strings and its first component is that base, a dot, and one of the
    TLDs. *)
Theorem generate_domain_combinations_In (B T : list string) (domain base : string) :
  In (domain, base) (generate_domain_combinations B T)
  <-> In base B /\ exists tld, In tld T /\ domain = base +++ "." +++ tld.
Proof.
  unfold generate_domain_combinations. rewrite in_flat_map. split.
  - intros (b & Hb & Hin). apply in_map_iff in Hin as (tld & Heq & Ht).
    injection Heq as <- <-. split; [assumption|]. now exists tld.
  - intros (Hb & tld & Ht & ->). exists base. split; [assumption|].
    apply in_map_iff. now exists tld.
Qed.

(** X2: without repetition among the base strings and among the TLDs, no
    pair is generated twice. *)
Theorem generate_domain_combinations_NoDup (B T : list string) :
  NoDup B -> NoDup T -> NoDup (generate_domain_combinations B T).
Proof.
  intros HB HT.
  induction HB as [|b B Hnotin HB IH]; [constructor|].
  change (generate_domain_combinations (b :: B) T)
    with (map (fun tld => (b +++ "." +++ tld, b)) T
          ++ generate_domain_combinations B T).
  apply NoDup_app.
  - apply NoDup_map_NoDup_ForallPairs; [|assumption].
    intros t1 t2 _ _ Heq. injection Heq as Heq.
    apply str_app_inv_head in Heq. now injection Heq.
  - exact IH.
  - intros [d b'] Hin1 Hin2.
    apply in_map_iff in Hin1 as (t1 & Heq & _). injection Heq as _ <-.
    apply generated_pair_base in Hin2. contradiction.
Qed.

Lemma generate_domain_combinations_NoDup_witness :
  NoDup ["test"; "example"] /\ NoDup ["com"; "net"]
  /\ NoDup (generate_domain_combinations ["test"; "example"] ["com"; "net"]).
Proof.
  assert (HB : NoDup ["test"; "example"]).
  { repeat constructor; simpl; intuition discriminate. }
  assert (HT : NoDup ["com"; "net"]).
  { repeat constructor; simpl; intuition discriminate. }
  split; [exact HB|]. split; [exact HT|].
  exact (generate_domain_combinations_NoDup _ _ HB HT).
Defined.

(** ** More on the prober and the aggregator *)

Lemma check_domain_lets_through (w : world) (domain : string) (t : trace)
    (e : py_exception) :
  whois_whois w t domain = WhoisFaults e ->
  isinstance_Exception e = false ->
  check_domain w domain t = (Raise e, t ++ [EvWhois domain (WhoisFaults e)]).
Proof.
  intros Ho He. rewrite check_domain_run, Ho. simpl. now rewrite He.
Qed.

(** X3: an exception of the query that is not an instance of [Exception]
    (a [KeyboardInterrupt], say) is not turned into a verdict: it leaves
    [check_domain], and a scan without callback that meets it stops there,
    raising it, with the later candidates not probed and no list returned. *)
Theorem interrupt_aborts_scan (w : world) (domain : string) (t : trace)
    (e : py_exception) :
  whois_whois w t domain = WhoisFaults e ->
  isinstance_Exception e = false ->
  check_domain w domain t = (Raise e, t ++ [EvWhois domain (WhoisFaults e)])
  /\ (forall pre post base t0 r1,
        find_available_domains w pre None t0 = (Ok r1, t) ->
        find_available_domains w (pre ++ (domain, base) :: post) None t0
        = (Raise e, t ++ [EvWhois domain (WhoisFaults e)])).
Proof.
  intros Ho He.
  pose proof (check_domain_lets_through w domain t e Ho He) as Hc.
  split; [exact Hc|].
  intros pre post base t0 r1 Hpre.
  unfold find_available_domains in *.
  rewrite scan_app. unfold bind at 1. rewrite Hpre, scan_cons.
  simpl notify. unfold ret. now rewrite Hc.
Qed.

Lemma interrupt_aborts_scan_witness :
  whois_whois interrupted_world [EvWhois "test.com" WhoisRecord] "test.net"
  = WhoisFaults KeyboardInterrupt
  /\ isinstance_Exception KeyboardInterrupt = false
  /\ find_available_domains interrupted_world
       ([("test.com", "test")] ++ ("test.net", "test") :: [("example.com", "example")])
       None []
     = (Raise KeyboardInterrupt,
        [EvWhois "test.com" WhoisRecord]
        ++ [EvWhois "test.net" (WhoisFaults KeyboardInterrupt)]).
Proof.
  split; [reflexivity|]. split; [reflexivity|].
  apply (proj2 (interrupt_aborts_scan interrupted_world "test.net"
                  [EvWhois "test.com" WhoisRecord] KeyboardInterrupt
                  eq_refl eq_refl)
           [("test.com", "test")] [("example.com", "example")] "test" [] []).
  reflexivity.
Defined.

Lemma notify_not_supplied (cb : option callback) (domain : string) (t : trace) :
  supplied cb = false -> notify cb domain t = (Ok tt, t).
Proof.
  unfold supplied, notify. destruct cb as [c|]; [|reflexivity].
  now intros ->.
Qed.

Lemma scan_not_supplied (w : world) (cb : option callback)
    (cs : list (string * string)) :
  supplied cb = false ->
  forall (acc : list string) (t : trace),
    scan w cb cs acc t = scan w None cs acc t
    /\ exists tr,
         snd (scan w cb cs acc t) = t ++ tr
         /\ Forall (fun ev => exists domain o, ev = EvWhois domain o) tr.
Proof.
  intros Hs.
  induction cs as [|[domain base] cs IH]; intros acc t.
  - split; [reflexivity|]. exists []. simpl. now rewrite app_nil_r.
  - rewrite !scan_cons, (notify_not_supplied cb domain t Hs).
    rewrite (notify_not_supplied None domain t eq_refl).
    rewrite check_domain_run.
    set (o := whois_whois w t domain).
    destruct (verdict o) as [registered|e].
    + destruct (IH (if negb registered then acc ++ [domain] else acc)
                   (t ++ [EvWhois domain o])) as (Heq & tr & Ht & Hall).
      split; [exact Heq|].
      exists (EvWhois domain o :: tr). split.
      * rewrite Ht, <- app_assoc. reflexivity.
      * constructor; [now exists domain, o|assumption].
    + split; [reflexivity|]. exists [EvWhois domain o]. split; [reflexivity|].
      constructor; [now exists domain, o|constructor].
Qed.

(** X4: a callback that is absent, or false under [if status_callback:],
    is never called: the scan behaves as without callback, and all it does
    to the outside is query WHOIS; it prints nothing. *)
Theorem find_available_domains_without_callback (w : world)
    (cs : list (string * string)) (cb : option callback) (t : trace) :
  supplied cb = false ->
  find_available_domains w cs cb t = find_available_domains w cs None t
  /\ exists tr,
       snd (find_available_domains w cs cb t) = t ++ tr
       /\ Forall (fun ev => exists domain o, ev = EvWhois domain o) tr.
Proof.
  intros Hs. unfold find_available_domains. now apply scan_not_supplied.
Qed.

Lemma find_available_domains_without_callback_witness :
  supplied (Some falsy_callback) = false
  /\ find_available_domains demo_world [("test.net", "test")] (Some falsy_callback) []
     = find_available_domains demo_world [("test.net", "test")] None [].
Proof.
  split; [reflexivity|].
  apply (proj1 (find_available_domains_without_callback demo_world
                  [("test.net", "test")] (Some falsy_callback) [] eq_refl)).
Defined.

(** The list built so far only ever grows at its end. *)
Lemma scan_acc (w : world) (cb : option callback) (cs : list (string * string)) :
  forall (acc : list string) (t : trace),
    scan w cb cs acc t
    = match scan w cb cs [] t with
      | (Ok r, t') => (Ok (acc ++ r), t')
      | (Raise e, t') => (Raise e, t')
      end.
Proof.
  induction cs as [|[domain base] cs IH]; intros acc t.
  - simpl. unfold ret. now rewrite app_nil_r.
  - rewrite !scan_cons.
    destruct (notify cb domain t) as [[[]|e] t0]; [|reflexivity].
    destruct (check_domain w domain t0) as [[registered|e] t1]; [|reflexivity].
    rewrite (IH (if negb registered then acc ++ [domain] else acc)).
    rewrite (IH (if negb registered then [] ++ [domain] else [])).
    destruct (scan w cb cs [] t1) as [[r|e] t2]; [|reflexivity].
    destruct registered; simpl; [reflexivity|].
    now rewrite <- app_assoc.
Qed.

(** X5: scanning a list in two batches, the second from where the first
    ended, finds what one scan of the whole list finds: the two results, one
    after the other. *)
Theorem find_available_domains_app (w : world) (pre post : list (string * string))
    (cb : option callback) (t t1 t2 : trace) (r1 r2 : list string) :
  find_available_domains w pre cb t = (Ok r1, t1) ->
  find_available_domains w post cb t1 = (Ok r2, t2) ->
  find_available_domains w (pre ++ post) cb t = (Ok (r1 ++ r2), t2).
Proof.
  unfold find_available_domains. intros Hpre Hpost.
  rewrite scan_app. unfold bind. rewrite Hpre, scan_acc, Hpost. reflexivity.
Qed.

Lemma find_available_domains_app_witness :
  find_available_domains demo_world
    ([("test.net", "test")] ++ [("example.com", "example"); ("test.net", "test")])
    None []
  = (Ok (["test.net"] ++ ["test.net"]),
     [EvWhois "test.net" (WhoisFaults (WhoisError "No match for TEST.NET"));
      EvWhois "example.com" WhoisRecord;
      EvWhois "test.net" (WhoisFaults (WhoisError "No match for TEST.NET"))]).
Proof.
  apply (find_available_domains_app demo_world
           [("test.net", "test")] [("example.com", "example"); ("test.net", "test")]
           None []
           [EvWhois "test.net" (WhoisFaults (WhoisError "No match for TEST.NET"))]);
    reflexivity.
Defined.

(** ** The printed result *)

Lemma split_newline_one (a : string) :
  no_newline a = true -> split_newline a = [a].
Proof.
  induction a as [|x a IH]; simpl; [reflexivity|].
  intros H. apply andb_true_iff in H as [Hx Ha].
  destruct (Ascii.eqb x newline); [discriminate|].
  now rewrite (IH Ha).
Qed.

Lemma split_newline_line (a rest : string) :
  no_newline a = true ->
  split_newline (a +++ String newline rest) = a :: split_newline rest.
Proof.
  induction a as [|x a IH]; simpl; [reflexivity|].
  intros H. apply andb_true_iff in H as [Hx Ha].
  destruct (Ascii.eqb x newline); [discriminate|].
  now rewrite (IH Ha).
Qed.

Lemma split_join_lines (l : list string) :
  l <> [] ->
  Forall (fun d => no_newline d = true) l ->
  split_newline (join_lines l) = l.
Proof.
  induction l as [|a l IH]; [congruence|].
  intros _ Hall. inversion Hall as [|? ? Ha Hl]; subst.
  destruct l as [|b l].
  - simpl. now apply split_newline_one.
  - change (join_lines (a :: b :: l))
      with (a +++ String newline (join_lines (b :: l))).
    rewrite (split_newline_line _ _ Ha), IH; [reflexivity|discriminate|assumption].
Qed.

(** X6: [print_results] never raises and prints either the single line
    saying that nothing was found, for the empty list, or a header followed
    by one text which, cut at its line breaks, is the list itself, one domain
    per line and in order, provided no domain holds a line break. *)
Theorem print_results_spec (available_domains : list string) (t : trace) :
  Forall (fun d => no_newline d = true) available_domains ->
  exists out,
    print_results available_domains t = (Ok tt, t ++ map EvPrint out)
    /\ (available_domains = [] -> out = ["No available domains found."])
    /\ (available_domains <> [] ->
        exists text,
          out = ["Available domains:"; text]
          /\ split_newline text = available_domains).
Proof.
  intros Hall. destruct available_domains as [|d ds].
  - exists ["No available domains found."].
    split; [reflexivity|]. split; [reflexivity|congruence].
  - exists ["Available domains:"; join_lines (d :: ds)].
    split.
    + unfold print_results, bind, print, emit. now rewrite <- app_assoc.
    + split; [discriminate|]. intros Hne.
      exists (join_lines (d :: ds)). split; [reflexivity|].
      now apply split_join_lines.
Qed.

Lemma print_results_spec_witness :
  Forall (fun d => no_newline d = true) ["test.net"; "example.org"]
  /\ exists out,
       print_results ["test.net"; "example.org"] [] = (Ok tt, [] ++ map EvPrint out)
       /\ (["test.net"; "example.org"] = [] -> out = ["No available domains found."])
       /\ (["test.net"; "example.org"] <> [] ->
           exists text,
             out = ["Available domains:"; text]
             /\ split_newline text = ["test.net"; "example.org"]).
Proof.
  assert (H : Forall (fun d => no_newline d = true) ["test.net"; "example.org"])
    by (repeat constructor).
  split; [exact H|].
  exact (print_results_spec ["test.net"; "example.org"] [] H).
Defined.

(** ** More on the loaders *)

(** X7: only a missing file is forgiven.  Any other failure of [open]
    (a [PermissionError], say) leaves [load_config] and [load_strings] as it
    is, and ends a run whose configuration file it hits. *)
Theorem loaders_propagate_open_errors (w : world) (path : string)
    (e : py_exception) (t : trace) :
  open_text w path = Raise e ->
  isinstance_FileNotFoundError e = false ->
  load_config w path t = (Raise e, t)
  /\ load_strings w path t = (Raise e, t)
  /\ (forall args, cli w = Ok args -> config args = path ->
        main w t = (Raise e, t)).
Proof.
  intros Ho He.
  assert (Hc : load_config w path t = (Raise e, t))
    by now rewrite load_config_run, Ho, He.
  split; [exact Hc|].
  split; [now rewrite load_strings_run, Ho, He|].
  intros args Hcli Hpath.
  unfold main, parse_arguments, lift, bind at 1. rewrite Hcli.
  unfold bind at 1. now rewrite Hpath, Hc.
Qed.

Lemma loaders_propagate_open_errors_witness :
  open_text locked_world "config.yaml" = Raise PermissionError
  /\ isinstance_FileNotFoundError PermissionError = false
  /\ load_config locked_world "config.yaml" [] = (Raise PermissionError, [])
  /\ load_strings locked_world "config.yaml" [] = (Raise PermissionError, [])
  /\ main locked_world [] = (Raise PermissionError, []).
Proof.
  split; [reflexivity|]. split; [reflexivity|].
  destruct (loaders_propagate_open_errors locked_world "config.yaml"
              PermissionError [] eq_refl eq_refl) as (Hc & Hs & Hm).
  split; [exact Hc|]. split; [exact Hs|].
  exact (Hm {| input_file := "names.txt"; config := "config.yaml" |} eq_refl eq_refl).
Defined.

Lemma dict_get_present (entries : list (string * list string)) (key : string)
    (value default : list string) :
  NoDup (map fst entries) ->
  In (key, value) entries ->
  dict_get entries key default = value.
Proof.
  induction entries as [|[k v] entries IH]; simpl; [tauto|].
  intros Hnd Hin. inversion Hnd as [|? ? Hk Hrest]; subst.
  destruct Hin as [Heq|Hin].
  - injection Heq as -> ->. now rewrite String.eqb_refl.
  - destruct (String.eqb_spec k key) as [->|_].
    + exfalso. apply Hk. apply in_map_iff. now exists (key, value).
    + now apply IH.
Qed.

(** X8: when the configuration parses to a dict (its keys are distinct)
    that binds [top_level_domains], [load_config] returns the list bound to
    it as it stands, whatever the other keys are. *)
Theorem load_config_returns_bound_list (w : world) (path content : string)
    (entries : list (string * list string)) (tlds : list string) (t : trace) :
  open_text w path = Ok content ->
  yaml_safe_load w content = inr (YamlMapping entries) ->
  NoDup (map fst entries) ->
  In ("top_level_domains", tlds) entries ->
  load_config w path t = (Ok tlds, t).
Proof.
  intros Ho Hp Hnd Hin. rewrite load_config_run, Ho, Hp. simpl.
  now rewrite (dict_get_present entries _ tlds [] Hnd Hin).
Qed.

Lemma load_config_returns_bound_list_witness :
  load_config demo_world "config.yaml" [] = (Ok ["com"; "net"], []).
Proof.
  apply (load_config_returns_bound_list demo_world "config.yaml"
           sample_config_text [("top_level_domains", ["com"; "net"])]).
  - reflexivity.
  - reflexivity.
  - repeat constructor. simpl. tauto.
  - simpl. tauto.
Defined.

(** ** Line breaks and the loaded strings *)

Lemma no_newline_app (a b : string) :
  no_newline (a +++ b) = no_newline a && no_newline b.
Proof.
  induction a as [|x a IH]; simpl; [reflexivity|].
  now rewrite IH, andb_assoc.
Qed.

Lemma isspace_newline : isspace newline = true.
Proof. reflexivity. Qed.

Lemma rstrip_snoc_space (s : string) (c : ascii) :
  isspace c = true -> rstrip (s +++ String c EmptyString) = rstrip s.
Proof.
  intros Hc. induction s as [|x s IH]; simpl.
  - now rewrite Hc.
  - now rewrite IH.
Qed.

Lemma no_newline_lstrip (s : string) :
  no_newline s = true -> no_newline (lstrip s) = true.
Proof.
  induction s as [|x s IH]; simpl; [trivial|].
  intros H. destruct (isspace x); [|exact H].
  apply andb_true_iff in H as [_ Hs]. now apply IH.
Qed.

Lemma no_newline_rstrip (s : string) :
  no_newline s = true -> no_newline (rstrip s) = true.
Proof.
  induction s as [|x s IH]; simpl; [trivial|].
  intros H. apply andb_true_iff in H as [Hx Hs]. specialize (IH Hs).
  destruct (rstrip s) as [|y r].
  - destruct (isspace x); simpl; [reflexivity|now rewrite Hx].
  - simpl in *. now rewrite Hx, IH.
Qed.

Lemma lines_from_shape (s cur : string) :
  no_newline cur = true -> Forall line_shape (lines_from cur s).
Proof.
  revert cur. induction s as [|x s IH]; intros cur Hcur; simpl.
  - destruct cur; simpl; constructor; [|constructor].
    exists (String a cur). split; [assumption|now left].
  - destruct (Ascii.eqb_spec x newline) as [->|Hx].
    + constructor; [|now apply IH].
      exists cur. split; [assumption|now right].
    + apply IH. rewrite no_newline_app, Hcur. simpl.
      apply Ascii.eqb_neq in Hx. now rewrite Hx.
Qed.

Lemma strip_line_no_newline (line : string) :
  line_shape line -> no_newline (strip line) = true.
Proof.
  intros (body & Hb & [->| ->]); unfold strip.
  - now apply no_newline_lstrip, no_newline_rstrip.
  - rewrite (rstrip_snoc_space body newline isspace_newline).
    now apply no_newline_lstrip, no_newline_rstrip.
Qed.

(** X9: no string returned by [load_strings] holds a line break. *)
Theorem load_strings_no_newline (w : world) (path : string) (t t' : trace)
    (base_strings : list string) :
  load_strings w path t = (Ok base_strings, t') ->
  Forall (fun base => no_newline base = true) base_strings.
Proof.
  rewrite load_strings_run. intros H. injection H as H _.
  destruct (open_text w path) as [content|e].
  - injection H as <-. apply Forall_forall. intros s Hs.
    apply in_map_iff in Hs as (line & <- & Hin).
    apply filter_In in Hin as [Hin _].
    apply strip_line_no_newline.
    pose proof (lines_from_shape content EmptyString eq_refl) as Hall.
    rewrite Forall_forall in Hall. now apply Hall.
  - destruct (isinstance_FileNotFoundError e); [|discriminate].
    injection H as <-. constructor.
Qed.

Lemma load_strings_no_newline_witness :
  load_strings demo_world "names.txt" [] = (Ok ["test"; "example"], [])
  /\ Forall (fun base => no_newline base = true) ["test"; "example"].
Proof.
  split; [reflexivity|].
  apply (load_strings_no_newline demo_world "names.txt" [] []).
  reflexivity.
Defined.

(** ** Writing a list of names and loading it back *)

Lemma lstrip_stripped (s : string) (c : ascii) :
  first_char s = Some c -> isspace c = false -> lstrip s = s.
Proof.
  destruct s as [|x s]; simpl; [discriminate|].
  intros H Hc. injection H as ->. now rewrite Hc.
Qed.

Lemma rstrip_stripped (s : string) (c : ascii) :
  last_char s = Some c -> isspace c = false -> rstrip s = s.
Proof.
  induction s as [|x s IH]; [discriminate|].
  destruct s as [|y s].
  - simpl. intros H Hc. injection H as ->. now rewrite Hc.
  - intros H Hc. change (last_char (String x (String y s)))
      with (last_char (String y s)) in H.
    change (rstrip (String x (String y s)))
      with (match rstrip (String y s) with
            | EmptyString => if isspace x then EmptyString else String x EmptyString
            | r => String x r
            end).
    now rewrite (IH H Hc).
Qed.

Lemma strip_stripped (s : string) : stripped s -> strip s = s.
Proof.
  intros (_ & (c & Hf & Hc) & (d & Hl & Hd)). unfold strip.
  rewrite (rstrip_stripped s d Hl Hd). exact (lstrip_stripped s c Hf Hc).
Qed.

Lemma stripped_not_blank (s suffix : string) :
  stripped s -> blank (s +++ suffix) = false.
Proof.
  intros (_ & (c & Hf & Hc) & _).
  destruct s as [|x s]; [discriminate|].
  simpl in *. injection Hf as ->. now rewrite Hc.
Qed.

Lemma lines_from_line (a rest cur : string) :
  no_newline a = true ->
  lines_from cur (a +++ String newline rest)
  = (cur +++ a +++ String newline EmptyString) :: lines_from EmptyString rest.
Proof.
  revert cur. induction a as [|x a IH]; intros cur Ha; simpl.
  - reflexivity.
  - apply andb_true_iff in Ha as [Hx Ha].
    destruct (Ascii.eqb x newline); [discriminate|].
    rewrite (IH _ Ha), str_app_assoc. reflexivity.
Qed.

Lemma lines_from_last (a cur : string) :
  no_newline a = true ->
  str_truthy (cur +++ a) = true ->
  lines_from cur a = [cur +++ a].
Proof.
  revert cur. induction a as [|x a IH]; intros cur Ha Hne; simpl.
  - rewrite str_app_nil_r in *. now rewrite Hne.
  - apply andb_true_iff in Ha as [Hx Ha].
    destruct (Ascii.eqb x newline); [discriminate|].
    rewrite IH; [now rewrite str_app_assoc|assumption|].
    now rewrite str_app_assoc.
Qed.

Lemma str_app_nil_l (s : string) : EmptyString +++ s = s.
Proof. reflexivity. Qed.

Lemma load_join_lines (l : list string) :
  Forall stripped l ->
  Forall (fun s => no_newline s = true) l ->
  map strip (filter (fun line => negb (blank line)) (file_lines (join_lines l))) = l.
Proof.
  unfold file_lines.
  induction l as [|a l IH]; intros Hs Hn; [reflexivity|].
  inversion Hs as [|? ? Ha Hl]; subst. inversion Hn as [|? ? Na Nl]; subst.
  destruct l as [|b l].
  - change (join_lines [a]) with a.
    rewrite lines_from_last; rewrite ?str_app_nil_l; trivial.
    + cbn [filter].
      pose proof (stripped_not_blank a EmptyString Ha) as Hb.
      rewrite str_app_nil_r in Hb. rewrite Hb. cbn [negb map].
      now rewrite (strip_stripped a Ha).
    + destruct Ha as [Hne _]. now destruct a.
  - change (join_lines (a :: b :: l))
      with (a +++ String newline (join_lines (b :: l))).
    rewrite (lines_from_line _ _ _ Na), str_app_nil_l.
    cbn [filter]. rewrite (stripped_not_blank a _ Ha). cbn [negb map].
    rewrite (IH Hl Nl). f_equal.
    unfold strip. rewrite (rstrip_snoc_space a newline isspace_newline).
    exact (strip_stripped a Ha).
Qed.

(** X10: a file written as [print_results] writes a list, one name per line,
    is loaded back unchanged by [load_strings], as long as every name is free
    of line breaks, not empty, and without whitespace at either end. *)
Theorem load_strings_join_lines (w : world) (path : string)
    (names : list string) (t : trace) :
  Forall stripped names ->
  Forall (fun s => no_newline s = true) names ->
  open_text w path = Ok (join_lines names) ->
  load_strings w path t = (Ok names, t).
Proof.
  intros Hs Hn Ho. rewrite load_strings_run, Ho.
  now rewrite (load_join_lines names Hs Hn).
Qed.

Lemma load_strings_join_lines_witness :
  load_strings (sample_world [("names.txt", join_lines ["test.net"; "example.org"])])
    "names.txt" []
  = (Ok ["test.net"; "example.org"], []).
Proof.
  apply (load_strings_join_lines
           (sample_world [("names.txt", join_lines ["test.net"; "example.org"])])
           "names.txt" ["test.net"; "example.org"] []).
  - repeat constructor; try discriminate; eexists; split; reflexivity.
  - repeat constructor.
  - reflexivity.
Defined.

(** ** Whole runs *)

Lemma print_results_run (available_domains : list string) (t : trace) :
  print_results available_domains t
  = (Ok tt,
     t ++ map EvPrint
            match available_domains with
            | [] => ["No available domains found."]
            | _ :: _ => ["Available domains:"; join_lines available_domains]
            end).
Proof.
  destruct available_domains as [|d ds]; [reflexivity|].
  unfold print_results, bind, print, emit. now rewrite <- app_assoc.
Qed.

Lemma print_status_never_raises : never_raises print_status_callback.
Proof. intros t arg. reflexivity. Qed.

Lemma generate_no_tlds (B : list string) : generate_domain_combinations B [] = [].
Proof. induction B as [|b B IH]; [reflexivity|exact IH]. Qed.

(** X11: a run whose two files load and whose queries fail only with
    instances of [Exception] ends normally.  For each of the [|B| * |T|]
    candidates in turn, base-major, it announces the domain and then probes
    it; standard output is the progress lines followed by the result block,
    which lists the domains whose probe came back [False], or says that there
    are none. *)
Theorem main_run (w : world) (args : Namespace) (B T : list string) (t : trace) :
  cli w = Ok args ->
  load_config w (config args) t = (Ok T, t) ->
  load_strings w (input_file args) t = (Ok B, t) ->
  ordinary_faults w ->
  exists tr,
    main w t = (Ok tt, t ++ tr)
    /\ calls tr
       = flat_map (fun c => [CallSink (fst c); CallProbe (fst c)])
                  (generate_domain_combinations B T)
    /\ map fst (probes tr) = map fst (generate_domain_combinations B T)
    /\ length (probes tr) = length B * length T
    /\ stdout tr
       = map (fun c => "Checking: " +++ fst c) (generate_domain_combinations B T)
         ++ match map fst (filter (fun p => negb (snd p)) (probes tr)) with
            | [] => ["No available domains found."]
            | d :: ds => ["Available domains:"; join_lines (d :: ds)]
            end.
Proof.
  intros Hcli Hcfg Hstr Hw.
  set (cs := generate_domain_combinations B T).
  set (cb := Some print_status_callback).
  assert (Hq : forall c, cb = Some c -> never_raises c).
  { intros c Hc. injection Hc as <-. exact print_status_never_raises. }
  destruct (scan_returns w cb cs Hw Hq [] t) as [r Hr].
  destruct (scan_run w cb cs [] t) as (tr1 & Ht1 & _ & Hok).
  destruct (Hok r Hr) as (Hcalls & Hprobes & Hres). simpl in Hres.
  destruct (scan_progress_lines w cs [] t) as (tr2 & Ht2 & Hout).
  fold cb in Ht2, Hout. specialize (Hout r Hr).
  assert (tr2 = tr1) by (apply (app_inv_head t); congruence). subst tr2.
  assert (Hscan : scan w cb cs [] t = (Ok r, t ++ tr1)).
  { destruct (scan w cb cs [] t) as [res t']. simpl in *. now subst. }
  exists (tr1 ++ map EvPrint
                   match r with
                   | [] => ["No available domains found."]
                   | _ :: _ => ["Available domains:"; join_lines r]
                   end).
  split.
  - unfold main, parse_arguments, lift, bind at 1. rewrite Hcli.
    unfold bind at 1. rewrite Hcfg.
    unfold bind at 1. rewrite Hstr.
    unfold bind, find_available_domains. fold cs. fold cb. rewrite Hscan.
    rewrite print_results_run. now rewrite <- app_assoc.
  - rewrite calls_app, probes_app, stdout_app.
    rewrite calls_prints, probes_prints, stdout_prints, !app_nil_r.
    split; [rewrite Hcalls; now apply scan_pattern_supplied|].
    split; [exact Hprobes|].
    split.
    + rewrite <- (length_map fst), Hprobes, length_map.
      apply flat_map_uniform_length.
    + rewrite Hout. f_equal. rewrite Hres. unfold available.
      now destruct (map fst (filter (fun p => negb (snd p)) (probes tr1))).
Qed.

Lemma main_run_witness :
  exists tr,
    main demo_world [] = (Ok tt, [] ++ tr)
    /\ calls tr
       = flat_map (fun c => [CallSink (fst c); CallProbe (fst c)])
                  (generate_domain_combinations ["test"; "example"] ["com"; "net"])
    /\ map fst (probes tr)
       = map fst (generate_domain_combinations ["test"; "example"] ["com"; "net"])
    /\ length (probes tr) = length ["test"; "example"] * length ["com"; "net"]
    /\ stdout tr
       = map (fun c => "Checking: " +++ fst c)
             (generate_domain_combinations ["test"; "example"] ["com"; "net"])
         ++ match map fst (filter (fun p => negb (snd p)) (probes tr)) with
            | [] => ["No available domains found."]
            | d :: ds => ["Available domains:"; join_lines (d :: ds)]
            end.
Proof.
  apply (main_run demo_world {| input_file := "names.txt"; config := "config.yaml" |}
           ["test"; "example"] ["com"; "net"] []).
  - reflexivity.
  - reflexivity.
  - reflexivity.
  - apply sample_whois_ordinary.
Defined.

(** X12: with the configuration file missing there is no TLD, hence no
    candidate: whatever base strings are loaded, the run queries nothing and
    prints only that nothing was found. *)
Theorem main_without_config (w : world) (args : Namespace) (B : list string)
    (t : trace) :
  cli w = Ok args ->
  open_text w (config args) = Raise FileNotFoundError ->
  load_strings w (input_file args) t = (Ok B, t) ->
  main w t = (Ok tt, t ++ [EvPrint "No available domains found."]).
Proof.
  intros Hcli Ho Hstr.
  unfold main, parse_arguments, lift, bind at 1. rewrite Hcli.
  unfold bind at 1. rewrite (load_config_missing_file w _ t Ho).
  unfold bind at 1. rewrite Hstr, generate_no_tlds.
  reflexivity.
Qed.

Lemma main_without_config_witness :
  main (sample_world [("names.txt", sample_input_text)]) []
  = (Ok tt, [] ++ [EvPrint "No available domains found."]).
Proof.
  apply (main_without_config (sample_world [("names.txt", sample_input_text)])
           {| input_file := "names.txt"; config := "config.yaml" |}
           ["test"; "example"] []);
    reflexivity.
Defined.
